(** * Workbench action registry: registration and dispatch of workbench actions

    A shallow embedding of [src/vs/workbench/common/actions.ts]: the
    registrar [_registerWorkbenchCommandFromAction], the command handler
    built by [_createCommandHandler], and the per-invocation life cycle of
    [_triggerAndDisposeAction].

    The file is organised as follows.
    - JavaScript values and the two operators the source relies on
      ([&&], [||]).
    - A state-and-exception monad for synchronous code, and a model of the
      promises the source chains ([TPromise.as], [then], [done],
      [TPromise.wrapError]).
    - The collaborators of the boundary: instantiation service, part
      service, message service, the three registries.
    - The three functions of the source.
    - Theorems. *)

From stdpp Require Import base strings list gmap.
From Stdlib Require Import ZArith.

Open Scope Z_scope.
Open Scope string_scope.
Open Scope list_scope.

Set Warnings "-register-all".

(** ** JavaScript values *)

(** The values that flow through the source as [any]: invocation
    arguments, errors, results of [run]. *)
Inductive jsval : Type :=
| VUndefined
| VNull
| VBool (b : bool)
| VNumber (n : Z)
| VString (s : string)
| VObject (props : list (string * jsval)).

(** JavaScript truthiness, as used by [if (x)], [x && y] and [x || y]. *)
Definition truthy (v : jsval) : bool :=
  match v with
  | VUndefined | VNull => false
  | VBool b => b
  | VNumber n => negb (Z.eqb n 0)
  | VString s => negb (String.eqb s "")
  | VObject _ => true
  end.

Fixpoint lookup_prop (name : string) (props : list (string * jsval)) : option jsval :=
  match props with
  | [] => None
  | (k, v) :: rest => if String.eqb k name then Some v else lookup_prop name rest
  end.

(** Property read [v.name]. The source only reads a property of a value it
    has just tested truthy, where the read cannot throw; a missing property
    reads as [undefined]. *)
Definition member (v : jsval) (name : string) : jsval :=
  match v with
  | VObject props => default VUndefined (lookup_prop name props)
  | _ => VUndefined
  end.

(** [a && b] and [a || b]; the right operand is passed as a function of
    unit because JavaScript evaluates it only when needed. *)
Definition js_and (a : jsval) (b : unit -> jsval) : jsval :=
  if truthy a then b tt else a.

Definition js_or (a : jsval) (b : unit -> jsval) : jsval :=
  if truthy a then a else b tt.

(** An optional string field ([label?: string]) read as a JavaScript
    value. *)
Definition of_optional_string (o : option string) : jsval :=
  match o with
  | Some s => VString s
  | None => VUndefined
  end.

(** ** Synchronous code: state and exceptions *)

Inductive outcome (A : Type) : Type :=
| Normal (a : A)
| Throw (e : jsval).
Arguments Normal {A} a.
Arguments Throw {A} e.

Definition ST (S A : Type) : Type := S -> outcome A * S.

Definition ret {S A : Type} (a : A) : ST S A := fun s => (Normal a, s).

Definition bind {S A B : Type} (m : ST S A) (f : A -> ST S B) : ST S B :=
  fun s =>
    match m s with
    | (Normal a, s') => f a s'
    | (Throw e, s') => (Throw e, s')
    end.

Definition throw {S A : Type} (e : jsval) : ST S A := fun s => (Throw e, s).

(** [try { m } catch (err) { h err }] *)
Definition try_catch {S A : Type} (m : ST S A) (h : jsval -> ST S A) : ST S A :=
  fun s =>
    match m s with
    | (Normal a, s') => (Normal a, s')
    | (Throw e, s') => h e s'
    end.

Declare Scope js_scope.
Delimit Scope js_scope with js.
Notation "x <- c1 ;; c2" := (bind c1 (fun x => c2))
  (at level 100, c1 at next level, right associativity) : js_scope.
Notation "c1 ;; c2" := (bind c1 (fun _ => c2))
  (at level 100, right associativity) : js_scope.
Open Scope js_scope.

(** ** Observable events *)

Module Severity.
Inductive t : Type := Ignore | Info | Warning | Error.
End Severity.

(** A reference to the action's constructible type
    ([descriptor.syncDescriptor]). *)
Definition TypeRef : Type := string.

Inductive settled : Type :=
| Fulfilled (v : jsval)
| Rejected (e : jsval).

(** Every call that crosses the boundary of the unit, in the order in
    which it happens, together with the two moments at which a promise
    handed in by a collaborator settles after the call that returned it. *)
Inductive event : Type :=
| CreateInstance (ctor : TypeRef)
| SetLabel (l : jsval)
| GetEnabled
| Dispose
| JoinCreation
| GateSettled (s : settled)
| Run (target : jsval) (context : jsval)
| RunSettled (s : settled)
| ShowMessage (severity : Severity.t) (message : jsval)
| Unhandled (e : jsval).

(** Synchronous code that only talks to the collaborators. *)
Definition L (A : Type) : Type := ST (list event) A.

Definition emit (e : event) : L unit := fun log => (Normal tt, log ++ [e]).

(** ** Promises *)

(** Modelled from the spec: [TPromise] ([vs/base/common/winjs.base]) is not
    part of the sources; the spec treats the result of trigger-and-dispose
    as an asynchronous operation with a success and a failure continuation,
    and the readiness gate as an awaitable that resolves immediately when
    the host is already created.  A promise is therefore either settled at
    the moment the code holds it ([Now]), settles in a later turn of the
    event loop ([Later]: the continuation records what happens at that
    moment, and yields the promise that stands for the rest), or never
    settles ([Never]).  Continuations of a promise that is already settled
    run at once, as the promises of [winjs.base] do; every promise of the
    source has a single consumer, so a chain is a sequence. *)
Inductive TPromise : Type :=
| Now (s : settled)
| Later (k : list event -> TPromise * list event)
| Never.

(** What a callback or [run] hands back: a plain value or a promise. *)
Inductive completion : Type :=
| Plain (v : jsval)
| Thenable (p : TPromise).

Definition callback : Type := jsval -> L completion.

(** [TPromise.as(value)] *)
Definition TPromise_as (r : completion) : TPromise :=
  match r with
  | Plain v => Now (Fulfilled v)
  | Thenable p => p
  end.

(** [TPromise.wrapError(err)] *)
Definition TPromise_wrapError (err : jsval) : TPromise := Now (Rejected err).

(** One continuation applied to a settled promise [p]: without a handler
    the settlement passes through; a handler's result is adopted, a throw
    of the handler rejects. *)
Definition run_callback (p : TPromise) (cb : option callback) (v : jsval)
    (log : list event) : TPromise * list event :=
  match cb with
  | None => (p, log)
  | Some f =>
      match f v log with
      | (Normal r, log') => (TPromise_as r, log')
      | (Throw e, log') => (Now (Rejected e), log')
      end
  end.

Fixpoint chain (p : TPromise) (onComplete onError : option callback)
    (log : list event) {struct p} : TPromise * list event :=
  match p with
  | Now (Fulfilled v) => run_callback p onComplete v log
  | Now (Rejected e) => run_callback p onError e log
  | Later k =>
      (Later (fun log1 =>
                let (p', log2) := k log1 in chain p' onComplete onError log2),
       log)
  | Never => (Never, log)
  end.

(** [p.then(onComplete, onError)] *)
Definition then_ (p : TPromise) (onComplete onError : option callback) : L TPromise :=
  fun log => let (q, log') := chain p onComplete onError log in (Normal q, log').

(** The event loop of the host.  [done] ends a chain: what is left of it is
    handed to the loop, which runs it in a later turn. *)
Record world : Type := { trace : list event; loop : list TPromise }.

Definition M (A : Type) : Type := ST world A.

Definition lift {A : Type} (m : L A) : M A :=
  fun w => let (r, log) := m (trace w) in (r, {| trace := log; loop := loop w |}).

Definition schedule (p : TPromise) : M unit :=
  fun w => (Normal tt, {| trace := trace w; loop := loop w ++ [p] |}).

(** [p.done(onComplete, onError)]: as [then], but nothing is returned, and
    a failure no handler took is rethrown by the loop ([Unhandled]). *)
Definition done (p : TPromise) (onComplete onError : option callback) : M unit :=
  q <- lift (then_ p onComplete onError) ;;
  schedule q.

Fixpoint drive (p : TPromise) (log : list event) {struct p} : list event :=
  match p with
  | Now (Fulfilled _) => log
  | Now (Rejected e) => log ++ [Unhandled e]
  | Later k => let (p', log') := k log in drive p' log'
  | Never => log
  end.

Definition event_loop (ps : list TPromise) (log : list event) : list event :=
  fold_left (fun acc p => drive p acc) ps log.

(** ** Collaborators *)

(** A promise handed in by a collaborator: settled when it is returned,
    settling in a later turn, or never settling. *)
Inductive ExternalPromise : Type :=
| Already (s : settled)
| Eventually (s : settled)
| Pending.

Definition external (mark : settled -> event) (x : ExternalPromise) : TPromise :=
  match x with
  | Already s => Now s
  | Eventually s => Later (fun log => (Now s, log ++ [mark s]))
  | Pending => Never
  end.

(** What [run] of an action instance does: throw, return a plain value, or
    return a promise. *)
Inductive RunBehaviour : Type :=
| RunThrows (e : jsval)
| RunReturns (v : jsval)
| RunPromise (x : ExternalPromise).

(** The action instance ([IAction]): its own label, its [enabled] flag and
    its [run] operation. *)
Module Action.
Record t : Type := {
  label : string;
  enabled : bool;
  run : jsval -> jsval -> RunBehaviour
}.
End Action.

(** [createInstance(typeRef)] is synchronous and may throw. *)
Record IInstantiationService : Type := {
  on_createInstance : TypeRef -> outcome Action.t
}.

(** [joinCreation()] returns the readiness gate. *)
Record IPartService : Type := {
  on_joinCreation : ExternalPromise
}.

(** [show(severity, error)] is fire-and-forget. *)
Inductive IMessageService : Type := MessageService.

(** The accessor handed to a command handler; a service that is not
    available makes [accessor.get] throw. *)
Record ServicesAccessor : Type := {
  messageService : option IMessageService;
  instantiationService : option IInstantiationService;
  partService : option IPartService
}.

Definition unknown_service (name : string) : jsval :=
  VObject [("message", VString ("unknown service " ++ name))].

Definition accessor_get {S T : Type} (name : string) (service : option T) : ST S T :=
  match service with
  | Some s => ret s
  | None => throw (unknown_service name)
  end.

Definition createInstance (service : IInstantiationService) (ctor : TypeRef) : L Action.t :=
  emit (CreateInstance ctor) ;;
  match on_createInstance service ctor with
  | Normal a => ret a
  | Throw e => throw e
  end.

Definition joinCreation (service : IPartService) : L TPromise :=
  emit JoinCreation ;;
  ret (external GateSettled (on_joinCreation service)).

Definition show (service : IMessageService) (severity : Severity.t) (message : jsval) : L unit :=
  emit (ShowMessage severity message).

Definition set_label (a : Action.t) (l : jsval) : L unit := emit (SetLabel l).

Definition get_enabled (a : Action.t) : L bool :=
  emit GetEnabled ;; ret (Action.enabled a).

Definition dispose (a : Action.t) : L unit := emit Dispose.

Definition run (a : Action.t) (target context : jsval) : L completion :=
  emit (Run target context) ;;
  match Action.run a target context with
  | RunThrows e => throw e
  | RunReturns v => ret (Plain v)
  | RunPromise x => ret (Thenable (external RunSettled x))
  end.

(** ** The action descriptor *)

(** Modelled from the spec: the types [IKeybindings] and
    [SyncActionDescriptor] ([vs/platform/actions/common/actions]) are not
    part of the sources; the fields are those of the spec's table of
    external interfaces. *)
Definition Keybinding : Type := Z.
Definition ContextKeyExpr : Type := string.

Module PlatformKeybindings.
Record t : Type := {
  primary : Keybinding;
  secondary : option (list Keybinding)
}.
End PlatformKeybindings.

Module IKeybindings.
Record t : Type := {
  primary : Keybinding;
  secondary : option (list Keybinding);
  win : option PlatformKeybindings.t;
  mac : option PlatformKeybindings.t;
  linux : option PlatformKeybindings.t
}.
End IKeybindings.

Module SyncActionDescriptor.
Record t : Type := {
  id : string;
  syncDescriptor : TypeRef;
  label : option string;
  keybindingContext : option ContextKeyExpr;
  keybindingWeight : option Z;
  keybindings : option IKeybindings.t
}.
End SyncActionDescriptor.

(** ** The invoker *)

Definition ICommandHandler : Type := ServicesAccessor -> jsval -> M unit.

(** [_triggerAndDisposeAction], lines 97-124. *)
Definition _triggerAndDisposeAction (instantitationService : IInstantiationService)
    (partService : IPartService) (descriptor : SyncActionDescriptor.t)
    (args : jsval) : L completion :=
  actionInstance <- createInstance instantitationService
                      (SyncActionDescriptor.syncDescriptor descriptor) ;;
  set_label actionInstance
    (js_or (of_optional_string (SyncActionDescriptor.label descriptor))
           (fun _ => VString (Action.label actionInstance))) ;;
  (* don't run the action when not enabled *)
  enabled <- get_enabled actionInstance ;;
  if negb enabled then
    dispose actionInstance ;;
    ret (Plain VUndefined)
  else
    let from := js_or (js_and args (fun _ => member args "from"))
                      (fun _ => VString "keybinding") in
    (* run action when workbench is created *)
    gate <- joinCreation partService ;;
    p <- then_ gate
           (Some (fun _ =>
              try_catch
                (r <- run actionInstance VUndefined (VObject [("from", from)]) ;;
                 q <- then_ (TPromise_as r)
                        (Some (fun _ =>
                           dispose actionInstance ;;
                           ret (Plain VUndefined)))
                        (Some (fun err =>
                           dispose actionInstance ;;
                           ret (Thenable (TPromise_wrapError err)))) ;;
                 ret (Thenable q))
                (fun err =>
                   dispose actionInstance ;;
                   ret (Thenable (TPromise_wrapError err)))))
           None ;;
    ret (Thenable p).

(** [_createCommandHandler], lines 85-95. *)
Definition _createCommandHandler (descriptor : SyncActionDescriptor.t) : ICommandHandler :=
  fun accessor args =>
    messageService <- accessor_get "IMessageService" (messageService accessor) ;;
    instantiationService <- accessor_get "IInstantiationService"
                              (instantiationService accessor) ;;
    partService <- accessor_get "IPartService" (partService accessor) ;;
    r <- lift (_triggerAndDisposeAction instantiationService partService descriptor args) ;;
    done (TPromise_as r) None
      (Some (fun err =>
         show messageService Severity.Error err ;;
         ret (Plain VUndefined))).

(** One invocation of a handler by the host: the synchronous call, its
    completion as seen by the caller, and what the event loop runs after
    the handler has returned. *)
Record invocation : Type := {
  completed : outcome unit;
  sync_trace : list event;
  async_trace : list event
}.

Definition invoke (handler : ICommandHandler) (accessor : ServicesAccessor)
    (args : jsval) : invocation :=
  let (r, w) := handler accessor args {| trace := []; loop := [] |} in
  {| completed := r;
     sync_trace := trace w;
     async_trace := event_loop (loop w) [] |}.

Definition full_trace (i : invocation) : list event := sync_trace i ++ async_trace i.

(** ** The registries *)

Module IKeybindingRule.
Record t : Type := {
  id : string;
  weight : Z;
  when : option ContextKeyExpr;
  primary : option Keybinding;
  secondary : option (list Keybinding);
  win : option PlatformKeybindings.t;
  mac : option PlatformKeybindings.t;
  linux : option PlatformKeybindings.t
}.
End IKeybindingRule.

Module Title.
Record t : Type := { value : string; original : string }.
End Title.

Module ICommandAction.
Record t : Type := {
  id : string;
  title : Title.t;
  category : option string
}.
End ICommandAction.

Module IMenuItem.
Record t : Type := { command : ICommandAction.t }.
End IMenuItem.

Inductive MenuId : Type := CommandPalette | EditorContext | ExplorerContext.

#[global]
Instance MenuId_eq_dec : EqDecision MenuId.
Proof. solve_decision. Defined.

(** Modelled from the spec: the command table, the keybinding rule table
    and the menu table ([CommandsRegistry], [KeybindingsRegistry],
    [MenuRegistry]) are not part of the sources.
    - [commands]: the command table, at most one handler per identifier.
    - [keybindingRules]: the rules in the order they were registered; the
      table has no removal.
    - [commandTitles]: the commands published with [addCommand], by
      identifier; [addCommand] returns nothing, so a title is not retracted.
    - [menuItems]: every item ever appended, in order; an item is known by
      its position, and removing it leaves [None] in its place, so that a
      disposable removes the very item it was returned for. *)
Record Registries : Type := {
  commands : gmap string ICommandHandler;
  keybindingRules : list IKeybindingRule.t;
  commandTitles : gmap string ICommandAction.t;
  menuItems : list (option (MenuId * IMenuItem.t))
}.

(** The items appended to a menu with [appendMenuItem] and not removed
    since.  What a menu derives from the published titles is not part of
    the sources and not part of this reading. *)
Definition menu_items (menu : MenuId) (r : Registries) : list IMenuItem.t :=
  omap (fun slot =>
          match slot with
          | Some (m, item) => if decide (m = menu) then Some item else None
          | None => None
          end) (menuItems r).

Definition R (A : Type) : Type := ST Registries A.

(** What a registration hands back to be disposed later. *)
Module IDisposable.
Inductive t : Type :=
| UnregisterCommand (id : string)
| RemoveMenuItem (position : nat)
| Combined (parts : list t).

Fixpoint dispose (d : t) (r : Registries) {struct d} : Registries :=
  match d with
  | UnregisterCommand id =>
      {| commands := delete id (commands r);
         keybindingRules := keybindingRules r;
         commandTitles := commandTitles r;
         menuItems := menuItems r |}
  | RemoveMenuItem position =>
      {| commands := commands r;
         keybindingRules := keybindingRules r;
         commandTitles := commandTitles r;
         menuItems := <[position := None]> (menuItems r) |}
  | Combined parts => fold_left (fun acc part => dispose part acc) parts r
  end.
End IDisposable.

(** [combinedDisposable(disposables)] *)
Definition combinedDisposable (disposables : list IDisposable.t) : IDisposable.t :=
  IDisposable.Combined disposables.

Definition duplicate_command (id : string) : jsval :=
  VObject [("message", VString ("command already registered: " ++ id))].

(** Modelled from the spec: [CommandsRegistry.registerCommand(id, handler)]
    returns a disposable, and fails when a command with that identifier
    already exists. *)
Definition registerCommand (id : string) (handler : ICommandHandler) : R IDisposable.t :=
  fun r =>
    match commands r !! id with
    | Some _ => (Throw (duplicate_command id), r)
    | None =>
        (Normal (IDisposable.UnregisterCommand id),
         {| commands := <[id := handler]> (commands r);
            keybindingRules := keybindingRules r;
            commandTitles := commandTitles r;
            menuItems := menuItems r |})
    end.

(** Modelled from the spec: [KeybindingsRegistry.registerKeybindingRule(rule)]
    returns nothing; no removal is assumed. *)
Definition registerKeybindingRule (rule : IKeybindingRule.t) : R unit :=
  fun r =>
    (Normal tt,
     {| commands := commands r;
        keybindingRules := keybindingRules r ++ [rule];
        commandTitles := commandTitles r;
        menuItems := menuItems r |}).

(** Modelled from the spec: [MenuRegistry.addCommand(command)] publishes the
    command's title under its identifier and returns nothing. *)
Definition addCommand (command : ICommandAction.t) : R unit :=
  fun r =>
    (Normal tt,
     {| commands := commands r;
        keybindingRules := keybindingRules r;
        commandTitles := <[ICommandAction.id command := command]> (commandTitles r);
        menuItems := menuItems r |}).

(** Modelled from the spec: [MenuRegistry.appendMenuItem(menu, item)]
    appends the item and returns the disposable that removes it. *)
Definition appendMenuItem (menu : MenuId) (item : IMenuItem.t) : R IDisposable.t :=
  fun r =>
    (Normal (IDisposable.RemoveMenuItem (length (menuItems r))),
     {| commands := commands r;
        keybindingRules := keybindingRules r;
        commandTitles := commandTitles r;
        menuItems := menuItems r ++ [Some (menu, item)] |}).

(** The test [if (descriptor.label)]: the label when it is a non-empty
    string. *)
Definition if_label (label : option string) : option string :=
  match label with
  | Some l => if truthy (VString l) then Some l else None
  | None => None
  end.

Section Registrar.

(** [KeybindingsRegistry.WEIGHT.workbenchContrib()]: the default weight of
    a workbench contribution; its value is not part of the sources. *)
Variable workbenchContrib : Z.

(** [_registerWorkbenchCommandFromAction], lines 42-83. *)
Definition _registerWorkbenchCommandFromAction (descriptor : SyncActionDescriptor.t)
    (alias : string) (category : option string) : R IDisposable.t :=
  let registrations : list IDisposable.t := [] in
  (* command *)
  c <- registerCommand (SyncActionDescriptor.id descriptor)
         (_createCommandHandler descriptor) ;;
  let registrations := registrations ++ [c] in
  (* keybinding *)
  let when := SyncActionDescriptor.keybindingContext descriptor in
  let weight := match SyncActionDescriptor.keybindingWeight descriptor with
                | None => workbenchContrib
                | Some w => w
                end in
  let keybindings := SyncActionDescriptor.keybindings descriptor in
  (* [keybindings && keybindings.f]: the field of the spec when there is a
     spec, [undefined] otherwise *)
  registerKeybindingRule
    {| IKeybindingRule.id := SyncActionDescriptor.id descriptor;
       IKeybindingRule.weight := weight;
       IKeybindingRule.when := when;
       IKeybindingRule.primary := IKeybindings.primary <$> keybindings;
       IKeybindingRule.secondary := keybindings ≫= IKeybindings.secondary;
       IKeybindingRule.win := keybindings ≫= IKeybindings.win;
       IKeybindingRule.mac := keybindings ≫= IKeybindings.mac;
       IKeybindingRule.linux := keybindings ≫= IKeybindings.linux |} ;;
  (* menu item *)
  match if_label (SyncActionDescriptor.label descriptor) with
  | Some label =>
      let command :=
        {| ICommandAction.id := SyncActionDescriptor.id descriptor;
           ICommandAction.title := {| Title.value := label; Title.original := alias |};
           ICommandAction.category := category |} in
      addCommand command ;;
      m <- appendMenuItem CommandPalette {| IMenuItem.command := command |} ;;
      let registrations := registrations ++ [m] in
      ret (combinedDisposable registrations)
  | None => ret (combinedDisposable registrations)
  end.

(** [registerWorkbenchAction], lines 38-40. *)
Definition registerWorkbenchAction (descriptor : SyncActionDescriptor.t)
    (alias : string) (category : option string) : R IDisposable.t :=
  _registerWorkbenchCommandFromAction descriptor alias category.

End Registrar.

(** ** Reading a trace *)

Definition is_dispose (e : event) : bool :=
  match e with Dispose => true | _ => false end.

Definition is_run (e : event) : bool :=
  match e with Run _ _ => true | _ => false end.

Definition is_joinCreation (e : event) : bool :=
  match e with JoinCreation => true | _ => false end.

Definition is_unhandled (e : event) : bool :=
  match e with Unhandled _ => true | _ => false end.

Fixpoint count (f : event -> bool) (t : list event) : nat :=
  match t with
  | [] => O
  | e :: rest => if f e then S (count f rest) else count f rest
  end.

(** The calls of [show], with their arguments, in order. *)
Definition notifications (t : list event) : list (Severity.t * jsval) :=
  omap (fun e => match e with ShowMessage s m => Some (s, m) | _ => None end) t.

(** The calls of [run], with their arguments, in order. *)
Definition runs (t : list event) : list (jsval * jsval) :=
  omap (fun e => match e with Run target c => Some (target, c) | _ => None end) t.

(** An accessor on which the three services resolve. *)
Definition services (ms : IMessageService) (inst : IInstantiationService)
    (part : IPartService) : ServicesAccessor :=
  {| messageService := Some ms;
     instantiationService := Some inst;
     partService := Some part |}.

(** The gate resolves: it was resolved when [joinCreation] returned it, or
    resolves later. *)
Definition resolves (x : ExternalPromise) : bool :=
  match x with
  | Already (Fulfilled _) | Eventually (Fulfilled _) => true
  | _ => false
  end.

(** The failure of a [run] that fails: a synchronous throw, or a promise
    that is or becomes rejected. *)
Definition failure (b : RunBehaviour) : option jsval :=
  match b with
  | RunThrows e => Some e
  | RunPromise (Already (Rejected e)) | RunPromise (Eventually (Rejected e)) => Some e
  | _ => None
  end.

(** A [run] that succeeds: it returns a plain value, or a promise that is
    or becomes fulfilled. *)
Definition succeeds (b : RunBehaviour) : bool :=
  match b with
  | RunReturns _ => true
  | RunPromise (Already (Fulfilled _)) | RunPromise (Eventually (Fulfilled _)) => true
  | _ => false
  end.

(** The context object [{ from }] that [run] receives. *)
Definition context_of (from : jsval) : jsval := VObject [("from", from)].

(** The origin the source computes: [args && args.from || 'keybinding']. *)
Definition resolved_origin (args : jsval) : jsval :=
  if truthy args && truthy (member args "from")
  then member args "from"
  else VString "keybinding".

(** The origin as the spec words it: [invocationArgs.from] when present,
    else the default. *)
Definition origin_when_present (args : jsval) : jsval :=
  match args with
  | VObject props =>
      match lookup_prop "from" props with
      | Some v => v
      | None => VString "keybinding"
      end
  | _ => VString "keybinding"
  end.


(** ** Reading a trace, continued *)

Definition is_createInstance (e : event) : bool :=
  match e with CreateInstance _ => true | _ => false end.

(** The calls that touch the action instance. *)
Definition uses_instance (e : event) : bool :=
  match e with
  | SetLabel _ | GetEnabled | Run _ _ | Dispose => true
  | _ => false
  end.

(** No call touches the instance after its first [dispose]. *)
Fixpoint quiet_after_dispose (t : list event) : bool :=
  match t with
  | [] => true
  | Dispose :: rest => forallb (fun e => negb (uses_instance e)) rest
  | _ :: rest => quiet_after_dispose rest
  end.

(** The labels assigned to the instance, in order. *)
Definition labels (t : list event) : list jsval :=
  omap (fun e => match e with SetLabel l => Some l | _ => None end) t.

(** The failure of an invocation on an enabled instance, read off the
    collaborators: the rejection of the gate, or else, when the gate
    resolves, the failure of [run]. *)
Definition invocation_failure (gate : ExternalPromise) (b : RunBehaviour) : option jsval :=
  match gate with
  | Already (Rejected e) | Eventually (Rejected e) => Some e
  | Already (Fulfilled _) | Eventually (Fulfilled _) => failure b
  | Pending => None
  end.

(** ** Sample collaborators

    The descriptor of the spec's scenario, and collaborators with a fixed
    behaviour, used to evaluate the functions at concrete inputs. *)

Definition sample_keybindings : IKeybindings.t :=
  {| IKeybindings.primary := 2089;
     IKeybindings.secondary := None;
     IKeybindings.win := None;
     IKeybindings.mac := None;
     IKeybindings.linux := None |}.

Definition sample_descriptor : SyncActionDescriptor.t :=
  {| SyncActionDescriptor.id := "test.cmd";
     SyncActionDescriptor.syncDescriptor := "TestAction";
     SyncActionDescriptor.label := Some "Test Command";
     SyncActionDescriptor.keybindingContext := None;
     SyncActionDescriptor.keybindingWeight := None;
     SyncActionDescriptor.keybindings := Some sample_keybindings |}.

Definition sample_action (enabled : bool) (behaviour : RunBehaviour) : Action.t :=
  {| Action.label := "Own Label";
     Action.enabled := enabled;
     Action.run := fun _ _ => behaviour |}.

Definition creating (a : Action.t) : IInstantiationService :=
  {| on_createInstance := fun _ => Normal a |}.


Definition gate (x : ExternalPromise) : IPartService :=
  {| on_joinCreation := x |}.

(** A descriptor without a label, with an explicit weight of zero. *)
Definition unlabelled_descriptor : SyncActionDescriptor.t :=
  {| SyncActionDescriptor.id := "other.cmd";
     SyncActionDescriptor.syncDescriptor := "OtherAction";
     SyncActionDescriptor.label := None;
     SyncActionDescriptor.keybindingContext := Some "editorFocus";
     SyncActionDescriptor.keybindingWeight := Some 0;
     SyncActionDescriptor.keybindings := None |}.

(** What an earlier registration of [unlabelled_descriptor] with a title
    would have left: a command, a rule, a published title and a palette
    item under ["other.cmd"]. *)
Definition other_command : ICommandAction.t :=
  {| ICommandAction.id := "other.cmd";
     ICommandAction.title := {| Title.value := "Other"; Title.original := "Other" |};
     ICommandAction.category := Some "View" |}.

Definition populated_registries : Registries :=
  {| commands := {[ "other.cmd" := _createCommandHandler unlabelled_descriptor ]};
     keybindingRules :=
       [{| IKeybindingRule.id := "other.cmd";
           IKeybindingRule.weight := 0;
           IKeybindingRule.when := Some "editorFocus";
           IKeybindingRule.primary := None;
           IKeybindingRule.secondary := None;
           IKeybindingRule.win := None;
           IKeybindingRule.mac := None;
           IKeybindingRule.linux := None |}];
     commandTitles := {[ "other.cmd" := other_command ]};
     menuItems := [Some (CommandPalette, {| IMenuItem.command := other_command |})] |}.

(** Registries in which nothing is registered. *)
Definition empty_registries : Registries :=
  {| commands := ∅; keybindingRules := []; commandTitles := ∅; menuItems := [] |}.

Definition boom : jsval := VObject [("message", VString "boom")].

(** ** Proof automation *)

(** Unfolds one invocation of the handler down to the behaviour of the
    collaborators. *)
Ltac unfold_invoker :=
  unfold invoke, full_trace, _createCommandHandler, _triggerAndDisposeAction,
    services, accessor_get, createInstance, joinCreation, show, set_label,
    get_enabled, dispose, run, done, schedule, lift, then_, try_catch, emit,
    bind, ret, throw, external, TPromise_as, TPromise_wrapError;
  cbn.

(** Case analysis on a collaborator's promise and on what [run] does. *)
Ltac promise_cases x := destruct x as [[?v|?e]|[?v|?e]|].
Ltac run_cases b := destruct b as [?e|?v|[[?v|?e]|[?v|?e]|]].

(** Splits a trace that is known event by event at an occurrence of an
    event. *)
Ltac split_trace :=
  repeat match goal with
         | H : _ :: _ = ?pre ++ _ :: _ |- _ => destruct pre; cbn in H; simplify_eq
         | H : [] = ?pre ++ _ :: _ |- _ => destruct pre; discriminate H
         end.

(** Unfolds one registration on a command table in which the identifier is
    free. *)
Ltac unfold_registrar Hfree :=
  unfold registerWorkbenchAction, _registerWorkbenchCommandFromAction,
    registerCommand, registerKeybindingRule, addCommand, appendMenuItem,
    combinedDisposable, bind, ret;
  rewrite Hfree; cbn.

(** * Theorems *)

(** ** The invoker *)

Lemma origin_resolved (args : jsval) :
  js_or (js_and args (fun _ => member args "from")) (fun _ => VString "keybinding")
  = resolved_origin args.
Proof.
  unfold js_or, js_and, resolved_origin.
  destruct (truthy args) eqn:Hargs; cbn.
  - destruct (truthy (member args "from")); reflexivity.
  - rewrite Hargs. reflexivity.
Qed.

(** The synchronous part of trigger-and-dispose up to the enablement
    check, for an instance that was created. *)
Lemma trigger_disabled inst part d args a log :
  on_createInstance inst (SyncActionDescriptor.syncDescriptor d) = Normal a ->
  Action.enabled a = false ->
  _triggerAndDisposeAction inst part d args log
  = (Normal (Plain VUndefined),
     log ++ [CreateInstance (SyncActionDescriptor.syncDescriptor d)]
         ++ [SetLabel (js_or (of_optional_string (SyncActionDescriptor.label d))
                             (fun _ => VString (Action.label a)))]
         ++ [GetEnabled] ++ [Dispose]).
Proof.
  intros Hcreated Hdisabled.
  unfold _triggerAndDisposeAction, createInstance, set_label, get_enabled,
    dispose, emit, bind, ret.
  rewrite Hcreated. cbn. rewrite Hdisabled. cbn.
  by rewrite <- !app_assoc.
Qed.

(** The whole invocation for an instance that reports disabled. *)
Lemma invoke_disabled d ms inst part args a :
  on_createInstance inst (SyncActionDescriptor.syncDescriptor d) = Normal a ->
  Action.enabled a = false ->
  invoke (_createCommandHandler d) (services ms inst part) args
  = {| completed := Normal tt;
       sync_trace :=
         [CreateInstance (SyncActionDescriptor.syncDescriptor d);
          SetLabel (js_or (of_optional_string (SyncActionDescriptor.label d))
                          (fun _ => VString (Action.label a)));
          GetEnabled; Dispose];
       async_trace := [] |}.
Proof.
  intros Hcreated Hdisabled.
  unfold invoke, _createCommandHandler, services, accessor_get,
    done, schedule, lift, then_, bind, ret. cbn.
  by rewrite (trigger_disabled inst part d args a [] Hcreated Hdisabled).
Qed.

(** ** C4: a disabled instance *)

(** C4. When the freshly created instance reports [enabled = false], its
    [dispose] is called exactly once, its [run] is never called, no
    notification is shown, and the invocation completes normally:
    trigger-and-dispose returns [undefined] without throwing, the handler
    returns to its caller, and nothing is left unhandled. *)
Theorem disabled_instance_is_disposed_not_run d ms inst part args a :
  on_createInstance inst (SyncActionDescriptor.syncDescriptor d) = Normal a ->
  Action.enabled a = false ->
  let i := invoke (_createCommandHandler d) (services ms inst part) args in
  count is_dispose (full_trace i) = 1%nat
  ∧ count is_run (full_trace i) = 0%nat
  ∧ notifications (full_trace i) = []
  ∧ completed i = Normal tt
  ∧ count is_unhandled (full_trace i) = 0%nat
  ∧ fst (_triggerAndDisposeAction inst part d args []) = Normal (Plain VUndefined).
Proof.
  intros Hcreated Hdisabled i. subst i.
  rewrite (invoke_disabled d ms inst part args a Hcreated Hdisabled).
  rewrite (trigger_disabled inst part d args a [] Hcreated Hdisabled).
  by cbn.
Qed.

Lemma disabled_instance_is_disposed_not_run_witness :
  let i := invoke (_createCommandHandler sample_descriptor)
             (services MessageService
                (creating (sample_action false (RunReturns VUndefined)))
                (gate (Eventually (Fulfilled VUndefined))))
             VUndefined in
  count is_dispose (full_trace i) = 1%nat
  ∧ count is_run (full_trace i) = 0%nat
  ∧ notifications (full_trace i) = []
  ∧ completed i = Normal tt
  ∧ count is_unhandled (full_trace i) = 0%nat
  ∧ fst (_triggerAndDisposeAction
           (creating (sample_action false (RunReturns VUndefined)))
           (gate (Eventually (Fulfilled VUndefined)))
           sample_descriptor VUndefined [])
    = Normal (Plain VUndefined).
Proof.
  apply (disabled_instance_is_disposed_not_run sample_descriptor MessageService
           (creating (sample_action false (RunReturns VUndefined)))
           (gate (Eventually (Fulfilled VUndefined))) VUndefined
           (sample_action false (RunReturns VUndefined)));
    reflexivity.
Defined.

(** ** C10: a disabled instance does not touch the readiness gate *)

(** C10. When the freshly created instance reports [enabled = false],
    [joinCreation] is never called: the synchronous part of the invocation
    ends with the enablement check followed by the disposal, nothing is
    left for a later turn, and the invocation is the same whatever the
    part service would answer. *)
Theorem disabled_instance_skips_gate d ms inst part args a :
  on_createInstance inst (SyncActionDescriptor.syncDescriptor d) = Normal a ->
  Action.enabled a = false ->
  let i := invoke (_createCommandHandler d) (services ms inst part) args in
  count is_joinCreation (full_trace i) = 0%nat
  ∧ (∃ before, sync_trace i = before ++ [GetEnabled; Dispose])
  ∧ async_trace i = []
  ∧ ∀ part', invoke (_createCommandHandler d) (services ms inst part') args = i.
Proof.
  intros Hcreated Hdisabled i. subst i.
  rewrite (invoke_disabled d ms inst part args a Hcreated Hdisabled).
  unfold full_trace. cbn. repeat split.
  - by eexists [_; _].
  - intros part'. by apply invoke_disabled.
Qed.

Lemma disabled_instance_skips_gate_witness :
  let i := invoke (_createCommandHandler sample_descriptor)
             (services MessageService
                (creating (sample_action false (RunReturns VUndefined)))
                (gate Pending))
             VUndefined in
  count is_joinCreation (full_trace i) = 0%nat
  ∧ (∃ before, sync_trace i = before ++ [GetEnabled; Dispose])
  ∧ async_trace i = []
  ∧ ∀ part', invoke (_createCommandHandler sample_descriptor)
               (services MessageService
                  (creating (sample_action false (RunReturns VUndefined))) part')
               VUndefined = i.
Proof.
  apply (disabled_instance_skips_gate sample_descriptor MessageService
           (creating (sample_action false (RunReturns VUndefined)))
           (gate Pending) VUndefined
           (sample_action false (RunReturns VUndefined)));
    reflexivity.
Defined.

(** ** C3: an enabled instance whose run fails *)

(** C3. When the instance reports enabled, the readiness gate resolves so
    that [run] is called, and [run] fails with [e] (it throws [e], or
    returns a promise that is or becomes rejected with [e]), then [dispose]
    is called exactly once, and [show] is called exactly once, at error
    severity, with [e]. *)
Theorem failed_run_disposes_and_notifies_once d ms inst part args a e :
  on_createInstance inst (SyncActionDescriptor.syncDescriptor d) = Normal a ->
  Action.enabled a = true ->
  resolves (on_joinCreation part) = true ->
  failure (Action.run a VUndefined (context_of (resolved_origin args))) = Some e ->
  let i := invoke (_createCommandHandler d) (services ms inst part) args in
  count is_dispose (full_trace i) = 1%nat
  ∧ notifications (full_trace i) = [(Severity.Error, e)].
Proof.
  intros Hcreated Henabled Hgate Hrun i. subst i.
  unfold context_of in Hrun.
  unfold_invoker. rewrite Hcreated. cbn. rewrite Henabled. cbn.
  rewrite ?origin_resolved.
  promise_cases (on_joinCreation part); try discriminate Hgate; cbn;
    run_cases (Action.run a VUndefined (VObject [("from", resolved_origin args)]));
    try discriminate Hrun; cbn in *; by simplify_eq.
Qed.

Lemma failed_run_disposes_and_notifies_once_witness :
  let i := invoke (_createCommandHandler sample_descriptor)
             (services MessageService
                (creating (sample_action true (RunPromise (Eventually (Rejected boom)))))
                (gate (Eventually (Fulfilled VUndefined))))
             VUndefined in
  count is_dispose (full_trace i) = 1%nat
  ∧ notifications (full_trace i) = [(Severity.Error, boom)].
Proof.
  apply (failed_run_disposes_and_notifies_once sample_descriptor MessageService
           (creating (sample_action true (RunPromise (Eventually (Rejected boom)))))
           (gate (Eventually (Fulfilled VUndefined))) VUndefined
           (sample_action true (RunPromise (Eventually (Rejected boom)))) boom);
    reflexivity.
Defined.

(** ** C8: the origin handed to run *)

(** C8, counterexample. With the invocation arguments [{ from: '' }] the
    field [from] is present, and its value is the empty string; the
    instance is nevertheless run with the origin ['keybinding']. *)
Lemma empty_origin_is_replaced :
  let args := VObject [("from", VString "")] in
  let i := invoke (_createCommandHandler sample_descriptor)
             (services MessageService
                (creating (sample_action true (RunReturns VUndefined)))
                (gate (Already (Fulfilled VUndefined))))
             args in
  origin_when_present args = VString ""
  ∧ runs (full_trace i) = [(VUndefined, context_of (VString "keybinding"))].
Proof. split; reflexivity. Qed.

(** The resolved origin is the field [from] of an arguments object when
    that field is truthy. *)
Lemma resolved_origin_present props v :
  lookup_prop "from" props = Some v ->
  truthy v = true ->
  resolved_origin (VObject props) = v.
Proof.
  intros Hfrom Htruthy. unfold resolved_origin, member.
  rewrite Hfrom. cbn. by rewrite Htruthy.
Qed.

(** The resolved origin is ['keybinding'] when the arguments are falsy, or
    their field [from] is missing or falsy. *)
Lemma resolved_origin_default args :
  truthy args = false ∨ truthy (member args "from") = false ->
  resolved_origin args = VString "keybinding".
Proof.
  unfold resolved_origin. intros [-> | ->]; [done|].
  by rewrite andb_false_r.
Qed.

(** C8, amended. Every invocation that reaches the run step (the instance
    is enabled and the gate resolves) calls [run] exactly once, with the
    explicit target [undefined] and the context [{ from }], where [from] is
    [invocationArgs.from] when the arguments and that field are truthy, and
    ['keybinding'] otherwise. *)
Theorem run_receives_resolved_origin d ms inst part args a :
  on_createInstance inst (SyncActionDescriptor.syncDescriptor d) = Normal a ->
  Action.enabled a = true ->
  resolves (on_joinCreation part) = true ->
  let i := invoke (_createCommandHandler d) (services ms inst part) args in
  runs (full_trace i) = [(VUndefined, context_of (resolved_origin args))].
Proof.
  intros Hcreated Henabled Hgate i. subst i.
  unfold context_of.
  unfold_invoker. rewrite Hcreated. cbn. rewrite Henabled. cbn.
  rewrite ?origin_resolved.
  promise_cases (on_joinCreation part); try discriminate Hgate; cbn;
    run_cases (Action.run a VUndefined (VObject [("from", resolved_origin args)]));
    reflexivity.
Qed.

Lemma run_receives_resolved_origin_witness :
  let args := VObject [("from", VString "menu")] in
  let i := invoke (_createCommandHandler sample_descriptor)
             (services MessageService
                (creating (sample_action true (RunReturns VUndefined)))
                (gate (Eventually (Fulfilled VUndefined))))
             args in
  runs (full_trace i) = [(VUndefined, context_of (VString "menu"))].
Proof.
  apply (run_receives_resolved_origin sample_descriptor MessageService
           (creating (sample_action true (RunReturns VUndefined)))
           (gate (Eventually (Fulfilled VUndefined)))
           (VObject [("from", VString "menu")])
           (sample_action true (RunReturns VUndefined)));
    reflexivity.
Defined.

(** ** C9: run waits for the readiness gate *)

(** C9. For an enabled instance, wherever [run] is called in the trace of
    the invocation, [joinCreation] was called before it and the gate it
    returned has resolved: either it was already resolved when it was
    returned, or the moment at which it resolves precedes the call of
    [run], and then [run] is not called in the synchronous part of the
    invocation but in the continuation of the gate.  A gate that rejects
    or never settles leaves [run] uncalled. *)
Theorem run_only_after_gate_resolved d ms inst part args a before target context after :
  on_createInstance inst (SyncActionDescriptor.syncDescriptor d) = Normal a ->
  Action.enabled a = true ->
  let i := invoke (_createCommandHandler d) (services ms inst part) args in
  full_trace i = before ++ Run target context :: after ->
  JoinCreation ∈ before
  ∧ match on_joinCreation part with
    | Already (Fulfilled _) => True
    | Eventually (Fulfilled v) =>
        GateSettled (Fulfilled v) ∈ before
        ∧ count is_run (sync_trace i) = 0%nat
        ∧ ∃ rest, async_trace i = GateSettled (Fulfilled v) :: Run target context :: rest
    | _ => False
    end.
Proof.
  intros Hcreated Henabled i Htrace. subst i. revert Htrace.
  unfold_invoker. rewrite Hcreated. cbn. rewrite Henabled. cbn.
  rewrite ?origin_resolved.
  promise_cases (on_joinCreation part); cbn;
    try run_cases (Action.run a VUndefined (VObject [("from", resolved_origin args)]));
    cbn; intros Htrace; split_trace;
    repeat split; try set_solver; by eexists.
Qed.

Lemma run_only_after_gate_resolved_witness :
  let i := invoke (_createCommandHandler sample_descriptor)
             (services MessageService
                (creating (sample_action true (RunReturns VUndefined)))
                (gate (Eventually (Fulfilled VUndefined))))
             VUndefined in
  let before := [CreateInstance "TestAction"; SetLabel (VString "Test Command");
                 GetEnabled; JoinCreation; GateSettled (Fulfilled VUndefined)] in
  JoinCreation ∈ before
  ∧ GateSettled (Fulfilled VUndefined) ∈ before
  ∧ count is_run (sync_trace i) = 0%nat
  ∧ ∃ rest, async_trace i
            = GateSettled (Fulfilled VUndefined)
              :: Run VUndefined (context_of (VString "keybinding")) :: rest.
Proof.
  apply (run_only_after_gate_resolved sample_descriptor MessageService
           (creating (sample_action true (RunReturns VUndefined)))
           (gate (Eventually (Fulfilled VUndefined))) VUndefined
           (sample_action true (RunReturns VUndefined))
           [CreateInstance "TestAction"; SetLabel (VString "Test Command");
            GetEnabled; JoinCreation; GateSettled (Fulfilled VUndefined)]
           VUndefined (context_of (VString "keybinding")) [Dispose]);
    reflexivity.
Defined.

(** ** C1: what reaches the caller of the handler *)




(** ** C2: disposal on every exit path *)

(** Whenever the instance is disabled, or the gate resolves and [run]
    throws, returns, or returns a promise that settles, the instance is
    disposed exactly once. *)
Lemma instance_disposed_once_when_gate_resolves d ms inst part args a :
  on_createInstance inst (SyncActionDescriptor.syncDescriptor d) = Normal a ->
  Action.enabled a = false
  ∨ (resolves (on_joinCreation part) = true
     ∧ Action.run a VUndefined (context_of (resolved_origin args)) ≠ RunPromise Pending) ->
  count is_dispose
    (full_trace (invoke (_createCommandHandler d) (services ms inst part) args))
  = 1%nat.
Proof.
  intros Hcreated [Hdisabled | [Hgate Hrun]].
  - by rewrite (invoke_disabled d ms inst part args a Hcreated Hdisabled).
  - unfold context_of in Hrun. revert Hrun.
    unfold_invoker. rewrite Hcreated. cbn.
    destruct (Action.enabled a); cbn; [|done].
    rewrite ?origin_resolved.
    promise_cases (on_joinCreation part); try discriminate Hgate; cbn;
      run_cases (Action.run a VUndefined (VObject [("from", resolved_origin args)]));
      cbn; done.
Qed.

Lemma instance_disposed_once_when_gate_resolves_witness :
  count is_dispose
    (full_trace
       (invoke (_createCommandHandler sample_descriptor)
          (services MessageService
             (creating (sample_action true (RunThrows boom)))
             (gate (Eventually (Fulfilled VUndefined))))
          VUndefined))
  = 1%nat.
Proof.
  apply (instance_disposed_once_when_gate_resolves sample_descriptor MessageService
           (creating (sample_action true (RunThrows boom)))
           (gate (Eventually (Fulfilled VUndefined))) VUndefined
           (sample_action true (RunThrows boom)));
    [reflexivity | right; split; [reflexivity | discriminate]].
Defined.

(** C2, at the failing input. The instance is created and enabled, and the
    readiness gate rejects: the failure is shown, but [dispose] is never
    called on the instance. *)
Theorem gate_rejection_leaks_instance :
  let i := invoke (_createCommandHandler sample_descriptor)
             (services MessageService
                (creating (sample_action true (RunReturns VUndefined)))
                (gate (Eventually (Rejected boom))))
             VUndefined in
  full_trace i
  = [CreateInstance "TestAction"; SetLabel (VString "Test Command"); GetEnabled;
     JoinCreation; GateSettled (Rejected boom); ShowMessage Severity.Error boom]
  ∧ count is_dispose (full_trace i) = 0%nat
  ∧ completed i = Normal tt.
Proof. repeat split. Qed.

(** ** Further properties of the invoker *)

(** When the instance is enabled, the gate resolves and [run] succeeds,
    [dispose] is called exactly once and nothing is shown. *)
Theorem successful_run_disposes_once_silently d ms inst part args a :
  on_createInstance inst (SyncActionDescriptor.syncDescriptor d) = Normal a ->
  Action.enabled a = true ->
  resolves (on_joinCreation part) = true ->
  succeeds (Action.run a VUndefined (context_of (resolved_origin args))) = true ->
  let i := invoke (_createCommandHandler d) (services ms inst part) args in
  count is_dispose (full_trace i) = 1%nat
  ∧ notifications (full_trace i) = []
  ∧ completed i = Normal tt.
Proof.
  intros Hcreated Henabled Hgate Hrun i. subst i.
  unfold context_of in Hrun.
  unfold_invoker. rewrite Hcreated. cbn. rewrite Henabled. cbn.
  rewrite ?origin_resolved.
  promise_cases (on_joinCreation part); try discriminate Hgate; cbn;
    run_cases (Action.run a VUndefined (VObject [("from", resolved_origin args)]));
    try discriminate Hrun; by cbn.
Qed.

Lemma successful_run_disposes_once_silently_witness :
  let i := invoke (_createCommandHandler sample_descriptor)
             (services MessageService
                (creating (sample_action true (RunPromise (Eventually (Fulfilled VUndefined)))))
                (gate (Already (Fulfilled VUndefined))))
             VUndefined in
  count is_dispose (full_trace i) = 1%nat
  ∧ notifications (full_trace i) = []
  ∧ completed i = Normal tt.
Proof.
  apply (successful_run_disposes_once_silently sample_descriptor MessageService
           (creating (sample_action true (RunPromise (Eventually (Fulfilled VUndefined)))))
           (gate (Already (Fulfilled VUndefined))) VUndefined
           (sample_action true (RunPromise (Eventually (Fulfilled VUndefined)))));
    reflexivity.
Defined.

(** A service the accessor cannot resolve makes the handler throw to its
    caller before anything else happens. *)
Lemma missing_service_escapes_handler d inst part args :
  invoke (_createCommandHandler d)
    {| messageService := None;
       instantiationService := Some inst;
       partService := Some part |} args
  = {| completed := Throw (unknown_service "IMessageService");
       sync_trace := [];
       async_trace := [] |}.
Proof. reflexivity. Qed.

(** ** Further properties of the invoker: the life cycle of one instance *)

(** Whatever the collaborators do, one invocation creates exactly one
    instance, of the descriptor's type and as its very first call; it
    calls [joinCreation], [run] and [dispose] at most once each; and once
    the instance is disposed nothing touches it again. *)
Theorem instance_lifecycle_is_linear d ms inst part args :
  let i := invoke (_createCommandHandler d) (services ms inst part) args in
  head (full_trace i) = Some (CreateInstance (SyncActionDescriptor.syncDescriptor d))
  ∧ count is_createInstance (full_trace i) = 1%nat
  ∧ (count is_joinCreation (full_trace i) <= 1)%nat
  ∧ (count is_run (full_trace i) <= 1)%nat
  ∧ (count is_dispose (full_trace i) <= 1)%nat
  ∧ quiet_after_dispose (full_trace i) = true.
Proof.
  intros i. subst i. unfold_invoker.
  destruct (on_createInstance inst (SyncActionDescriptor.syncDescriptor d)) as [a|e];
    cbn; [|repeat split; lia].
  destruct (Action.enabled a); cbn; [|repeat split; lia].
  rewrite ?origin_resolved.
  promise_cases (on_joinCreation part); cbn;
    try run_cases (Action.run a VUndefined (VObject [("from", resolved_origin args)]));
    cbn; repeat split; lia.
Qed.

(** For an enabled instance to which [joinCreation] has returned the
    gate, [show] is called exactly when the gate rejects or, the gate
    having resolved, [run] fails: once, at error severity, with that
    failure; when neither happens it is not called. *)
Theorem notification_exactly_on_failure d ms inst part args a :
  on_createInstance inst (SyncActionDescriptor.syncDescriptor d) = Normal a ->
  Action.enabled a = true ->
  let i := invoke (_createCommandHandler d) (services ms inst part) args in
  notifications (full_trace i)
  = match invocation_failure (on_joinCreation part)
            (Action.run a VUndefined (context_of (resolved_origin args))) with
    | Some e => [(Severity.Error, e)]
    | None => []
    end.
Proof.
  intros Hcreated Henabled i. subst i. unfold context_of.
  unfold_invoker. rewrite Hcreated. cbn. rewrite Henabled. cbn.
  rewrite ?origin_resolved.
  promise_cases (on_joinCreation part); cbn;
    try run_cases (Action.run a VUndefined (VObject [("from", resolved_origin args)]));
    by cbn.
Qed.

Lemma notification_exactly_on_failure_witness :
  let i := invoke (_createCommandHandler sample_descriptor)
             (services MessageService
                (creating (sample_action true (RunReturns VUndefined)))
                (gate (Already (Rejected boom))))
             VUndefined in
  notifications (full_trace i) = [(Severity.Error, boom)].
Proof.
  apply (notification_exactly_on_failure sample_descriptor MessageService
           (creating (sample_action true (RunReturns VUndefined)))
           (gate (Already (Rejected boom))) VUndefined
           (sample_action true (RunReturns VUndefined)));
    reflexivity.
Defined.

(** When one of the three services does not resolve, the handler throws
    to its caller at the resolution, before it creates an instance or
    calls any other collaborator. *)
Theorem unresolved_service_stops_handler d accessor args :
  messageService accessor = None
  ∨ instantiationService accessor = None
  ∨ partService accessor = None ->
  let i := invoke (_createCommandHandler d) accessor args in
  (∃ name, completed i = Throw (unknown_service name))
  ∧ full_trace i = [].
Proof.
  intros Hmissing i. subst i.
  destruct accessor as [[ms|] [inst|] [part|]]; cbn in Hmissing;
    try (destruct Hmissing as [? | [? | ?]]; discriminate);
    unfold invoke, full_trace, _createCommandHandler, accessor_get, bind, throw, ret;
    cbn; split; by eauto.
Qed.

Lemma unresolved_service_stops_handler_witness :
  let i := invoke (_createCommandHandler sample_descriptor)
             {| messageService := Some MessageService;
                instantiationService :=
                  Some (creating (sample_action true (RunReturns VUndefined)));
                partService := None |}
             VUndefined in
  (∃ name, completed i = Throw (unknown_service name))
  ∧ full_trace i = [].
Proof.
  apply (unresolved_service_stops_handler sample_descriptor
           {| messageService := Some MessageService;
              instantiationService :=
                Some (creating (sample_action true (RunReturns VUndefined)));
              partService := None |}
           VUndefined).
  right. right. reflexivity.
Defined.

(** The label of a created instance is assigned exactly once, right after
    the creation and before [enabled] is read: the descriptor's label when
    it is a non-empty string, and otherwise the instance's own label,
    written back unchanged. *)
Theorem label_assigned_once_before_enablement d ms inst part args a :
  on_createInstance inst (SyncActionDescriptor.syncDescriptor d) = Normal a ->
  let i := invoke (_createCommandHandler d) (services ms inst part) args in
  let assigned :=
    match SyncActionDescriptor.label d with
    | Some l => if String.eqb l "" then Action.label a else l
    | None => Action.label a
    end in
  labels (full_trace i) = [VString assigned]
  ∧ take 3 (full_trace i)
    = [CreateInstance (SyncActionDescriptor.syncDescriptor d);
       SetLabel (VString assigned); GetEnabled].
Proof.
  intros Hcreated i assigned. subst i.
  assert (Hlabel : js_or (of_optional_string (SyncActionDescriptor.label d))
                         (fun _ => VString (Action.label a)) = VString assigned).
  { subst assigned. unfold js_or.
    destruct (SyncActionDescriptor.label d) as [l|]; cbn; [|done].
    by destruct (String.eqb l ""). }
  unfold_invoker. rewrite Hcreated. cbn. rewrite Hlabel.
  destruct (Action.enabled a); cbn; [|done].
  rewrite ?origin_resolved.
  promise_cases (on_joinCreation part); cbn;
    try run_cases (Action.run a VUndefined (VObject [("from", resolved_origin args)]));
    by cbn.
Qed.

Lemma label_assigned_once_before_enablement_witness :
  let d := {| SyncActionDescriptor.id := "test.cmd";
              SyncActionDescriptor.syncDescriptor := "TestAction";
              SyncActionDescriptor.label := Some "";
              SyncActionDescriptor.keybindingContext := None;
              SyncActionDescriptor.keybindingWeight := None;
              SyncActionDescriptor.keybindings := None |} in
  let i := invoke (_createCommandHandler d)
             (services MessageService
                (creating (sample_action false (RunReturns VUndefined)))
                (gate Pending))
             VUndefined in
  labels (full_trace i) = [VString "Own Label"]
  ∧ take 3 (full_trace i)
    = [CreateInstance "TestAction"; SetLabel (VString "Own Label"); GetEnabled].
Proof.
  apply (label_assigned_once_before_enablement
           {| SyncActionDescriptor.id := "test.cmd";
              SyncActionDescriptor.syncDescriptor := "TestAction";
              SyncActionDescriptor.label := Some "";
              SyncActionDescriptor.keybindingContext := None;
              SyncActionDescriptor.keybindingWeight := None;
              SyncActionDescriptor.keybindings := None |}
           MessageService
           (creating (sample_action false (RunReturns VUndefined)))
           (gate Pending) VUndefined
           (sample_action false (RunReturns VUndefined)));
    reflexivity.
Defined.

(** The origin the source computes is never falsy. *)
Lemma resolved_origin_truthy args : truthy (resolved_origin args) = true.
Proof.
  unfold resolved_origin.
  destruct (truthy args); cbn; [|done].
  by destruct (truthy (member args "from")) eqn:Hfrom.
Qed.

(** Whatever the arguments of the invocation and whatever the
    collaborators do, every call of [run] receives the target [undefined]
    and a context [{ from }] whose origin is truthy: the instance never
    sees a missing or empty origin. *)
Theorem run_origin_is_never_falsy d ms inst part args :
  let i := invoke (_createCommandHandler d) (services ms inst part) args in
  Forall (fun call => fst call = VUndefined
                      ∧ ∃ from, snd call = context_of from ∧ truthy from = true)
         (runs (full_trace i)).
Proof.
  intros i. subst i.
  assert (Hcall : Forall (fun call => fst call = VUndefined
                      ∧ ∃ from, snd call = context_of from ∧ truthy from = true)
                    [(VUndefined, VObject [("from", resolved_origin args)])]).
  { repeat constructor. exists (resolved_origin args).
    split; [reflexivity | apply resolved_origin_truthy]. }
  unfold_invoker.
  destruct (on_createInstance inst (SyncActionDescriptor.syncDescriptor d)) as [a|e];
    cbn; [|constructor].
  destruct (Action.enabled a); cbn; [|constructor].
  rewrite ?origin_resolved.
  promise_cases (on_joinCreation part); cbn;
    try run_cases (Action.run a VUndefined (VObject [("from", resolved_origin args)]));
    cbn; first [exact Hcall | constructor].
Qed.

(** The invocation sets no deadline: when the gate never settles, or the
    gate resolves and [run] returns a promise that never settles, the
    handler has returned normally, nothing is shown, and the instance is
    not disposed. *)
Theorem unsettled_invocation_stays_open d ms inst part args a :
  on_createInstance inst (SyncActionDescriptor.syncDescriptor d) = Normal a ->
  Action.enabled a = true ->
  on_joinCreation part = Pending
  ∨ (resolves (on_joinCreation part) = true
     ∧ Action.run a VUndefined (context_of (resolved_origin args)) = RunPromise Pending) ->
  let i := invoke (_createCommandHandler d) (services ms inst part) args in
  completed i = Normal tt
  ∧ count is_dispose (full_trace i) = 0%nat
  ∧ notifications (full_trace i) = []
  ∧ count is_run (full_trace i)
    = (if resolves (on_joinCreation part) then 1%nat else 0%nat).
Proof.
  intros Hcreated Henabled Hopen i. subst i. unfold context_of in Hopen.
  unfold_invoker. rewrite Hcreated. cbn. rewrite Henabled. cbn.
  rewrite ?origin_resolved.
  destruct Hopen as [-> | [Hgate ->]]; [done|].
  promise_cases (on_joinCreation part); try discriminate Hgate; by cbn.
Qed.

Lemma unsettled_invocation_stays_open_witness :
  let i := invoke (_createCommandHandler sample_descriptor)
             (services MessageService
                (creating (sample_action true (RunPromise Pending)))
                (gate (Eventually (Fulfilled VUndefined))))
             VUndefined in
  completed i = Normal tt
  ∧ count is_dispose (full_trace i) = 0%nat
  ∧ notifications (full_trace i) = []
  ∧ count is_run (full_trace i) = 1%nat.
Proof.
  apply (unsettled_invocation_stays_open sample_descriptor MessageService
           (creating (sample_action true (RunPromise Pending)))
           (gate (Eventually (Fulfilled VUndefined))) VUndefined
           (sample_action true (RunPromise Pending)));
    [reflexivity | reflexivity | right; split; reflexivity].
Defined.

(** ** The registrar *)

(** The test [if (descriptor.label)] succeeds exactly on a non-empty
    label. *)
Lemma if_label_non_empty l : l ≠ "" -> if_label (Some l) = Some l.
Proof.
  intros Hl. unfold if_label, truthy.
  destruct (String.eqb_spec l "") as [->|_]; [done|reflexivity].
Qed.

Lemma if_label_empty label : label = None ∨ label = Some "" -> if_label label = None.
Proof. by intros [-> | ->]. Qed.

(** On the command table of the spec, which refuses an identifier that is
    already registered, registration fails and changes nothing. *)
Lemma register_duplicate_fails w d alias category r handler :
  commands r !! SyncActionDescriptor.id d = Some handler ->
  registerWorkbenchAction w d alias category r
  = (Throw (duplicate_command (SyncActionDescriptor.id d)), r).
Proof.
  intros Hdup.
  unfold registerWorkbenchAction, _registerWorkbenchCommandFromAction,
    registerCommand, bind.
  by rewrite Hdup.
Qed.

(** ** C5: the keybinding rule *)

(** C5. For every descriptor whose identifier is free in the command
    table, [register] completes and appends exactly one rule to the
    keybinding rule table.  The rule is keyed by [descriptor.id]; its
    weight is [descriptor.keybindingWeight] when that field is present
    (zero included) and the workbench-contribution default otherwise; its
    [when] is the descriptor's activation predicate; its chords are those
    of the descriptor's keybinding spec when the spec is present, and are
    all absent otherwise. *)
Theorem register_installs_keybinding_rule w d alias category r :
  commands r !! SyncActionDescriptor.id d = None ->
  ∃ handle r' rule,
    registerWorkbenchAction w d alias category r = (Normal handle, r')
    ∧ keybindingRules r' = keybindingRules r ++ [rule]
    ∧ IKeybindingRule.id rule = SyncActionDescriptor.id d
    ∧ (∀ x, SyncActionDescriptor.keybindingWeight d = Some x ->
            IKeybindingRule.weight rule = x)
    ∧ (SyncActionDescriptor.keybindingWeight d = None ->
       IKeybindingRule.weight rule = w)
    ∧ IKeybindingRule.when rule = SyncActionDescriptor.keybindingContext d
    ∧ (∀ k, SyncActionDescriptor.keybindings d = Some k ->
            IKeybindingRule.primary rule = Some (IKeybindings.primary k)
            ∧ IKeybindingRule.secondary rule = IKeybindings.secondary k
            ∧ IKeybindingRule.win rule = IKeybindings.win k
            ∧ IKeybindingRule.mac rule = IKeybindings.mac k
            ∧ IKeybindingRule.linux rule = IKeybindings.linux k)
    ∧ (SyncActionDescriptor.keybindings d = None ->
       IKeybindingRule.primary rule = None
       ∧ IKeybindingRule.secondary rule = None
       ∧ IKeybindingRule.win rule = None
       ∧ IKeybindingRule.mac rule = None
       ∧ IKeybindingRule.linux rule = None).
Proof.
  intros Hfree. unfold_registrar Hfree.
  destruct (if_label (SyncActionDescriptor.label d)) as [l|]; cbn;
    eexists _, _, _; (split; [reflexivity|]); cbn;
    (split; [reflexivity|]); cbn;
    repeat split; intros;
    repeat match goal with
           | H : SyncActionDescriptor.keybindingWeight d = _ |- _ => rewrite H; clear H
           | H : SyncActionDescriptor.keybindings d = _ |- _ => rewrite H; clear H
           end; reflexivity.
Qed.

(** ** C6: the command title and the palette entry *)

(** C6. For every descriptor whose identifier is free in the command
    table, [register] completes and leaves the command registered under
    [descriptor.id] with the handler of the invoker.  When the label is
    non-empty, the title [{value: label, original: alias}] with the
    category is published under [descriptor.id] and one entry for that
    command is appended to the command palette; when the label is absent
    or empty, no title is published and no menu item is appended. *)
Theorem register_publishes_title_iff_label w d alias category r :
  commands r !! SyncActionDescriptor.id d = None ->
  ∃ handle r',
    registerWorkbenchAction w d alias category r = (Normal handle, r')
    ∧ commands r' !! SyncActionDescriptor.id d = Some (_createCommandHandler d)
    ∧ (∀ l, SyncActionDescriptor.label d = Some l -> l ≠ "" ->
         let command :=
           {| ICommandAction.id := SyncActionDescriptor.id d;
              ICommandAction.title := {| Title.value := l; Title.original := alias |};
              ICommandAction.category := category |} in
         commandTitles r' = <[SyncActionDescriptor.id d := command]> (commandTitles r)
         ∧ commandTitles r' !! SyncActionDescriptor.id d = Some command
         ∧ menuItems r' = menuItems r ++ [Some (CommandPalette, {| IMenuItem.command := command |})]
         ∧ menu_items CommandPalette r'
           = menu_items CommandPalette r ++ [{| IMenuItem.command := command |}])
    ∧ (SyncActionDescriptor.label d = None ∨ SyncActionDescriptor.label d = Some "" ->
       commandTitles r' = commandTitles r
       ∧ menuItems r' = menuItems r
       ∧ menu_items CommandPalette r' = menu_items CommandPalette r).
Proof.
  intros Hfree. unfold_registrar Hfree.
  destruct (if_label (SyncActionDescriptor.label d)) as [l|] eqn:Hlabel; cbn;
    eexists _, _; (split; [reflexivity|]); cbn;
    (split; [by rewrite lookup_insert_eq|]); split.
  - intros l' Hl' Hne. rewrite Hl', (if_label_non_empty l' Hne) in Hlabel.
    simplify_eq. cbn. repeat split.
    + by rewrite lookup_insert_eq.
    + unfold menu_items. cbn. rewrite omap_app. cbn.
      by rewrite decide_True.
  - intros Hempty. by rewrite (if_label_empty _ Hempty) in Hlabel.
  - intros l' Hl' Hne. rewrite Hl', (if_label_non_empty l' Hne) in Hlabel. done.
  - done.
Qed.

Lemma register_installs_keybinding_rule_witness :
  ∃ handle r' rule,
    registerWorkbenchAction 200 sample_descriptor "Test Command" None empty_registries
    = (Normal handle, r')
    ∧ keybindingRules r' = keybindingRules empty_registries ++ [rule]
    ∧ IKeybindingRule.id rule = "test.cmd"
    ∧ IKeybindingRule.weight rule = 200
    ∧ IKeybindingRule.when rule = None
    ∧ IKeybindingRule.primary rule = Some 2089.
Proof.
  destruct (register_installs_keybinding_rule 200 sample_descriptor "Test Command"
              None empty_registries)
    as (handle & r' & rule & Hregister & Hrules & Hid & _ & Hweight & Hwhen & Hchords & _);
    [reflexivity|].
  destruct (Hchords sample_keybindings) as (Hprimary & _); [reflexivity|].
  exists handle, r', rule.
  repeat split; [exact Hregister | exact Hrules | exact Hid
                | exact (Hweight eq_refl) | exact Hwhen | exact Hprimary].
Defined.

Lemma register_publishes_title_iff_label_witness :
  ∃ handle r',
    registerWorkbenchAction 200 sample_descriptor "Test Command" None empty_registries
    = (Normal handle, r')
    ∧ commands r' !! "test.cmd" = Some (_createCommandHandler sample_descriptor)
    ∧ menu_items CommandPalette r'
      = [{| IMenuItem.command :=
              {| ICommandAction.id := "test.cmd";
                 ICommandAction.title :=
                   {| Title.value := "Test Command"; Title.original := "Test Command" |};
                 ICommandAction.category := None |} |}].
Proof.
  destruct (register_publishes_title_iff_label 200 sample_descriptor "Test Command"
              None empty_registries)
    as (handle & r' & Hregister & Hcommand & Hlabel & _); [reflexivity|].
  destruct (Hlabel "Test Command") as (_ & _ & _ & Hpalette); [reflexivity|done|].
  exists handle, r'.
  repeat split; [exact Hregister | exact Hcommand | exact Hpalette].
Defined.

(** ** C7: disposing the handle *)

(** C7, counterexample. After registering the sample descriptor in empty
    registries and disposing the handle, the command title published under
    ["test.cmd"] is still there. *)
Lemma title_survives_disposal :
  ∃ handle r',
    registerWorkbenchAction 200 sample_descriptor "Test Command" None empty_registries
    = (Normal handle, r')
    ∧ commandTitles (IDisposable.dispose handle r') !! "test.cmd"
      = Some {| ICommandAction.id := "test.cmd";
                ICommandAction.title :=
                  {| Title.value := "Test Command"; Title.original := "Test Command" |};
                ICommandAction.category := None |}.
Proof.
  assert (Hfree : commands empty_registries !! SyncActionDescriptor.id sample_descriptor
                  = None) by reflexivity.
  eexists _, _. split.
  - unfold_registrar Hfree. reflexivity.
  - cbn. by rewrite lookup_insert_eq.
Qed.

(** C7, amended. For every descriptor with a non-empty label whose
    identifier is free in the command table: after [register] the command
    is in the command table and its entry is in the command palette;
    disposing the returned handle removes that palette entry and the
    command, while the published command title and the keybinding rule
    both persist. *)
Theorem disposal_removes_palette_entry_keeps_title w d alias category r l :
  commands r !! SyncActionDescriptor.id d = None ->
  SyncActionDescriptor.label d = Some l ->
  l ≠ "" ->
  ∃ handle r',
    registerWorkbenchAction w d alias category r = (Normal handle, r')
    ∧ let command :=
        {| ICommandAction.id := SyncActionDescriptor.id d;
           ICommandAction.title := {| Title.value := l; Title.original := alias |};
           ICommandAction.category := category |} in
      let after := IDisposable.dispose handle r' in
      commands r' !! SyncActionDescriptor.id d = Some (_createCommandHandler d)
      ∧ menu_items CommandPalette r'
        = menu_items CommandPalette r ++ [{| IMenuItem.command := command |}]
      ∧ commandTitles r' !! SyncActionDescriptor.id d = Some command
      ∧ menu_items CommandPalette after = menu_items CommandPalette r
      ∧ commands after !! SyncActionDescriptor.id d = None
      ∧ commandTitles after !! SyncActionDescriptor.id d = Some command
      ∧ keybindingRules after = keybindingRules r'
      ∧ length (keybindingRules r') = S (length (keybindingRules r)).
Proof.
  intros Hfree Hlabel Hne. unfold_registrar Hfree.
  rewrite Hlabel, (if_label_non_empty l Hne). cbn.
  eexists _, _. split; [reflexivity|]. cbn.
  unfold menu_items. cbn.
  rewrite insert_app_r_alt, Nat.sub_diag by lia. cbn.
  rewrite !omap_app. cbn. rewrite decide_True by done.
  rewrite app_nil_r, lookup_delete_eq, !lookup_insert_eq.
  repeat split. rewrite length_app. cbn. lia.
Qed.

Lemma disposal_removes_palette_entry_keeps_title_witness :
  ∃ handle r',
    registerWorkbenchAction 200 sample_descriptor "Test Command" None empty_registries
    = (Normal handle, r')
    ∧ let command :=
        {| ICommandAction.id := "test.cmd";
           ICommandAction.title :=
             {| Title.value := "Test Command"; Title.original := "Test Command" |};
           ICommandAction.category := None |} in
      let after := IDisposable.dispose handle r' in
      commands r' !! "test.cmd" = Some (_createCommandHandler sample_descriptor)
      ∧ menu_items CommandPalette r'
        = menu_items CommandPalette empty_registries ++ [{| IMenuItem.command := command |}]
      ∧ commandTitles r' !! "test.cmd" = Some command
      ∧ menu_items CommandPalette after = menu_items CommandPalette empty_registries
      ∧ commands after !! "test.cmd" = None
      ∧ commandTitles after !! "test.cmd" = Some command
      ∧ keybindingRules after = keybindingRules r'
      ∧ length (keybindingRules r') = S (length (keybindingRules empty_registries)).
Proof.
  apply (disposal_removes_palette_entry_keeps_title 200 sample_descriptor
           "Test Command" None empty_registries "Test Command");
    [reflexivity | reflexivity | done].
Defined.

(** ** Further properties of the registrar *)

(** Registration touches nothing that is registered under another
    identifier: the other commands and the other published titles are as
    before, and the rules and menu items that were there are still there,
    in their places. *)
Theorem register_preserves_other_registrations w d alias category r :
  commands r !! SyncActionDescriptor.id d = None ->
  ∃ handle r',
    registerWorkbenchAction w d alias category r = (Normal handle, r')
    ∧ (∀ other, other ≠ SyncActionDescriptor.id d ->
         commands r' !! other = commands r !! other
         ∧ commandTitles r' !! other = commandTitles r !! other)
    ∧ keybindingRules r `prefix_of` keybindingRules r'
    ∧ menuItems r `prefix_of` menuItems r'.
Proof.
  intros Hfree. unfold_registrar Hfree.
  destruct (if_label (SyncActionDescriptor.label d)) as [l|]; cbn;
    eexists _, _; (split; [reflexivity|]); cbn; repeat split;
    try (by rewrite lookup_insert_ne);
    try (by apply prefix_app_r); done.
Qed.

Lemma register_preserves_other_registrations_witness :
  ∃ handle r',
    registerWorkbenchAction 200 sample_descriptor "Test Command" None populated_registries
    = (Normal handle, r')
    ∧ commands r' !! "other.cmd" = Some (_createCommandHandler unlabelled_descriptor)
    ∧ commandTitles r' !! "other.cmd" = Some other_command
    ∧ keybindingRules populated_registries `prefix_of` keybindingRules r'
    ∧ menuItems populated_registries `prefix_of` menuItems r'.
Proof.
  destruct (register_preserves_other_registrations 200 sample_descriptor
              "Test Command" None populated_registries)
    as (handle & r' & Hregister & Hother & Hrules & Hitems); [reflexivity|].
  destruct (Hother "other.cmd") as (Hcommand & Htitle); [done|].
  exists handle, r'.
  repeat split;
    [exact Hregister
    | exact (eq_trans Hcommand eq_refl)
    | exact (eq_trans Htitle eq_refl)
    | exact Hrules
    | exact Hitems].
Defined.

(** Registering and then disposing the handle is a round trip on the
    command table and on the items appended to the menus, whether or not
    the descriptor has a label.  It is no round trip on the rest: the
    keybinding rule and the published command title, if any, stay as the
    registration left them. *)
Theorem register_dispose_round_trip w d alias category r :
  commands r !! SyncActionDescriptor.id d = None ->
  ∃ handle r',
    registerWorkbenchAction w d alias category r = (Normal handle, r')
    ∧ let after := IDisposable.dispose handle r' in
      commands after = commands r
      ∧ (∀ menu, menu_items menu after = menu_items menu r)
      ∧ commandTitles after = commandTitles r'
      ∧ keybindingRules after = keybindingRules r'
      ∧ length (keybindingRules r') = S (length (keybindingRules r)).
Proof.
  intros Hfree. unfold_registrar Hfree.
  destruct (if_label (SyncActionDescriptor.label d)) as [l|]; cbn;
    eexists _, _; (split; [reflexivity|]); cbn;
    rewrite delete_insert_eq, (delete_id _ _ Hfree), length_app; cbn;
    (split; [reflexivity|]);
    (split; [|repeat split; lia]); intros menu; [|reflexivity].
  unfold menu_items. cbn.
  rewrite insert_app_r_alt, Nat.sub_diag by lia. cbn.
  rewrite omap_app. cbn. by rewrite app_nil_r.
Qed.

Lemma register_dispose_round_trip_witness :
  ∃ handle r',
    registerWorkbenchAction 200 sample_descriptor "Test Command" None populated_registries
    = (Normal handle, r')
    ∧ let after := IDisposable.dispose handle r' in
      commands after = commands populated_registries
      ∧ (∀ menu, menu_items menu after = menu_items menu populated_registries)
      ∧ commandTitles after = commandTitles r'
      ∧ keybindingRules after = keybindingRules r'
      ∧ length (keybindingRules r') = S (length (keybindingRules populated_registries)).
Proof.
  apply (register_dispose_round_trip 200 sample_descriptor "Test Command"
           None populated_registries).
  reflexivity.
Defined.

(** Two registrations are independent.  After registering two descriptors
    with distinct identifiers one after the other, disposing the first
    handle leaves the command table and the items appended to the menus
    exactly as if only the second descriptor had been registered.  The
    published titles and the keybinding rules are not touched by the
    disposal: those of both descriptors stay. *)
Theorem disposal_leaves_other_registration w d1 alias1 category1 d2 alias2 category2 r :
  commands r !! SyncActionDescriptor.id d1 = None ->
  commands r !! SyncActionDescriptor.id d2 = None ->
  SyncActionDescriptor.id d1 ≠ SyncActionDescriptor.id d2 ->
  ∃ handle1 r1 handle2 r2 handle r',
    registerWorkbenchAction w d1 alias1 category1 r = (Normal handle1, r1)
    ∧ registerWorkbenchAction w d2 alias2 category2 r1 = (Normal handle2, r2)
    ∧ registerWorkbenchAction w d2 alias2 category2 r = (Normal handle, r')
    ∧ let after := IDisposable.dispose handle1 r2 in
      commands after = commands r'
      ∧ (∀ menu, menu_items menu after = menu_items menu r')
      ∧ commandTitles after = commandTitles r2
      ∧ keybindingRules after = keybindingRules r2
      ∧ length (keybindingRules r2) = S (S (length (keybindingRules r))).
Proof.
  intros Hfree1 Hfree2 Hne.
  assert (Hfree2' : ∀ handler,
    <[SyncActionDescriptor.id d1 := handler]> (commands r) !! SyncActionDescriptor.id d2
    = None) by (intros handler; by rewrite lookup_insert_ne).
  destruct (if_label (SyncActionDescriptor.label d1)) as [l1|] eqn:Hlabel1;
    destruct (if_label (SyncActionDescriptor.label d2)) as [l2|] eqn:Hlabel2;
    eexists _, _, _, _, _, _;
    (split; [unfold_registrar Hfree1; rewrite Hlabel1; reflexivity|]);
    (split; [unfold registerWorkbenchAction, _registerWorkbenchCommandFromAction,
               registerCommand, registerKeybindingRule, addCommand, appendMenuItem,
               combinedDisposable, bind, ret; cbn;
             rewrite Hfree2'; cbn; rewrite Hlabel2; reflexivity|]);
    (split; [unfold_registrar Hfree2; rewrite Hlabel2; reflexivity|]); cbn;
    rewrite (delete_insert_ne _ _ _ _ Hne), delete_insert_eq, (delete_id _ _ Hfree1),
      !length_app; cbn;
    (split; [reflexivity|]); (split; [|repeat split; lia]); intros menu;
    unfold menu_items; cbn; try reflexivity.
  - rewrite insert_app_l by (rewrite length_app; cbn; lia).
    rewrite insert_app_r_alt, Nat.sub_diag by lia. cbn.
    rewrite !omap_app. cbn. by rewrite app_nil_r.
  - rewrite insert_app_r_alt, Nat.sub_diag by lia. cbn.
    rewrite !omap_app. cbn. by rewrite app_nil_r.
Qed.

Lemma disposal_leaves_other_registration_witness :
  ∃ handle1 r1 handle2 r2 handle r',
    registerWorkbenchAction 200 sample_descriptor "Test Command" None empty_registries
    = (Normal handle1, r1)
    ∧ registerWorkbenchAction 200 unlabelled_descriptor "Other" (Some "View") r1
      = (Normal handle2, r2)
    ∧ registerWorkbenchAction 200 unlabelled_descriptor "Other" (Some "View") empty_registries
      = (Normal handle, r')
    ∧ let after := IDisposable.dispose handle1 r2 in
      commands after = commands r'
      ∧ (∀ menu, menu_items menu after = menu_items menu r')
      ∧ commandTitles after = commandTitles r2
      ∧ keybindingRules after = keybindingRules r2
      ∧ length (keybindingRules r2) = S (S (length (keybindingRules empty_registries))).
Proof.
  apply (disposal_leaves_other_registration 200 sample_descriptor "Test Command" None
           unlabelled_descriptor "Other" (Some "View") empty_registries);
    [reflexivity | reflexivity | done].
Defined.

(** Once the handle is disposed the identifier is free again, and the
    descriptor can be registered anew; the rule of the first registration
    was not retracted, so the keybinding rule table then holds the same
    rule twice. *)
Theorem reregistration_accumulates_rules w d alias category r :
  commands r !! SyncActionDescriptor.id d = None ->
  ∃ handle r' handle' r'' rule,
    registerWorkbenchAction w d alias category r = (Normal handle, r')
    ∧ registerWorkbenchAction w d alias category (IDisposable.dispose handle r')
      = (Normal handle', r'')
    ∧ keybindingRules r'' = keybindingRules r ++ [rule; rule]
    ∧ commands r'' !! SyncActionDescriptor.id d = Some (_createCommandHandler d).
Proof.
  intros Hfree.
  destruct (if_label (SyncActionDescriptor.label d)) as [l|] eqn:Hlabel;
    eexists _, _, _, _, _;
    (split; [unfold_registrar Hfree; rewrite Hlabel; reflexivity|]);
    (split; [unfold registerWorkbenchAction, _registerWorkbenchCommandFromAction,
               registerCommand, registerKeybindingRule, addCommand, appendMenuItem,
               combinedDisposable, bind, ret; cbn;
             rewrite lookup_delete_eq; cbn; rewrite Hlabel; reflexivity|]);
    cbn; rewrite <- app_assoc, lookup_insert_eq; by cbn.
Qed.

Lemma reregistration_accumulates_rules_witness :
  ∃ handle r' handle' r'' rule,
    registerWorkbenchAction 200 sample_descriptor "Test Command" None empty_registries
    = (Normal handle, r')
    ∧ registerWorkbenchAction 200 sample_descriptor "Test Command" None
        (IDisposable.dispose handle r')
      = (Normal handle', r'')
    ∧ keybindingRules r'' = keybindingRules empty_registries ++ [rule; rule]
    ∧ commands r'' !! "test.cmd" = Some (_createCommandHandler sample_descriptor).
Proof.
  apply (reregistration_accumulates_rules 200 sample_descriptor "Test Command"
           None empty_registries).
  reflexivity.
Defined.
